(** * The command controller of [frontend/src/App.jsx]

    A shallow embedding of the React component [App]: its state cells
    ([messages], [isListening], [generatedWebsiteUrlRef]), the intent
    classifier [isWebsiteGenerationRequest], the handlers [toggleListening],
    [handleSendMessage] and [speakText], the placeholder
    [generateWebsiteAsync] and the rendering of the transcript.

    Reading conventions, fixed once for the whole development:
    - the file is a module, so its code is strict: a name is looked up in
      the scopes that enclose its use, a function declared inside a block is
      bound in that block only, and evaluating a name that no enclosing
      scope binds throws a ReferenceError;
    - the handlers are modelled as functions, as they behave when called;
    - [consoleWarn], which the file calls and never declares, is given by
      what a call of it does;
    - strings are sequences of 8-bit characters and [toLowerCase] acts on the
      letters A-Z only;
    - the React setters are modelled as immediate writes to the state cell. *)

From Stdlib Require Import Strings.String Strings.Ascii Lists.List Bool.Bool.
From Stdlib Require Import Arith.PeanoNat micromega.Lia.
Import ListNotations.
Open Scope string_scope.

(** ** String primitives used by the handlers *)

Module JsString.

(** [String.prototype.startsWith], the building block of [includes]. *)
Fixpoint startsWith (s p : string) : bool :=
  match p, s with
  | EmptyString, _ => true
  | String _ _, EmptyString => false
  | String c p', String d s' => Ascii.eqb c d && startsWith s' p'
  end.

(** [s.includes(p)]: [p] occurs in [s] at some position. *)
Fixpoint includes (s p : string) : bool :=
  startsWith s p ||
  match s with
  | EmptyString => false
  | String _ s' => includes s' p
  end.

Definition isUpper (c : ascii) : bool :=
  ((65 <=? nat_of_ascii c)%nat && (nat_of_ascii c <=? 90)%nat)%bool.

Definition lowerChar (c : ascii) : ascii :=
  if isUpper c then ascii_of_nat (nat_of_ascii c + 32) else c.

(** [s.toLowerCase()] *)
Fixpoint toLowerCase (s : string) : string :=
  match s with
  | EmptyString => EmptyString
  | String c s' => String (lowerChar c) (toLowerCase s')
  end.

(** A regular expression that is an alternation of literal strings, as in
    [/build website|create website/]; [test] succeeds when one alternative
    occurs somewhere in the subject. No flag is set, so letters are
    compared as they are. *)
Definition regexp := list string.

Definition test (re : regexp) (s : string) : bool :=
  existsb (includes s) re.

End JsString.

Import JsString.

(** ** Data model *)

(** Values a promise can be fulfilled with. The placeholder task fulfils with
    [undefined]; a generation backend would fulfil with a URL. *)
Inductive value : Type :=
| VUndefined
| VUrl (url : string).

Inductive error : Type :=
| ReferenceError (name : string)
| TypeError (msg : string)
| Failure (msg : string).

(** How a promise settles. *)
Inductive settled : Type :=
| Fulfilled (v : value)
| Rejected (e : error).

Inductive log_entry : Type :=
| Warn (msg : string)
| Error (label : string) (e : error).

Definition isError (l : log_entry) : bool :=
  match l with Error _ _ => true | Warn _ => false end.

(** Modelled from the spec: the element type of [messages]. The source
    declares [messages] as an array and never constructs an element; the
    spec's data model gives each entry a text and an origin. *)
Inductive origin : Type := User | System.

Record MessageEntry : Type := mkEntry { text : string; from : origin }.

Definition isFrom (o : origin) (m : MessageEntry) : bool :=
  match o, from m with
  | User, User | System, System => true
  | _, _ => false
  end.

(** The component's cells, the speech recognizer, and what the handlers
    leave behind on the console. [generateCalls] is a ghost counter of the
    invocations of [generateWebsiteAsync]. *)
Record state : Type := mkState {
  messages : list MessageEntry;            (* useState([]) *)
  isListening : bool;                      (* useState(false) *)
  generatedWebsiteUrlRef : option string;  (* useRef(null).current *)
  speech : option bool;  (* None: no handle; Some c: a recognizer, capturing iff c *)
  console : list log_entry;
  generateCalls : nat
}.

Definition initial (sp : option bool) : state :=
  {| messages := []; isListening := false; generatedWebsiteUrlRef := None;
     speech := sp; console := []; generateCalls := 0 |}.

(** ** Completions and the handler monad *)

(** A JavaScript completion: a handler either finishes normally or throws. *)
Inductive completion (A : Type) : Type :=
| Normal (a : A)
| Throw (e : error).

Arguments Normal {A} a.
Arguments Throw {A} e.

Definition M (A : Type) : Type := state -> state * completion A.

Definition ret {A} (a : A) : M A := fun s => (s, Normal a).

Definition throw {A} (e : error) : M A := fun s => (s, Throw e).

Definition bind {A B} (m : M A) (k : A -> M B) : M B :=
  fun s =>
    match m s with
    | (s', Normal a) => k a s'
    | (s', Throw e) => (s', Throw e)
    end.

Notation "x <- m ;; k" := (bind m (fun x => k))
  (at level 61, m at next level, right associativity).
Notation "m ;; k" := (bind m (fun _ => k))
  (at level 61, right associativity).

(** [try { body } catch (error) { handler } finally { finalizer }]: the
    handler runs on a throw of the body, the finalizer runs in every case and
    replaces the completion only when it throws itself. *)
Definition tryCatchFinally {A} (body : M A) (handler : error -> M A)
    (finalizer : M unit) : M A :=
  fun s =>
    let (s1, r1) :=
      match body s with
      | (s', Normal a) => (s', Normal a)
      | (s', Throw e) => handler e s'
      end in
    match finalizer s1 with
    | (s2, Normal _) => (s2, r1)
    | (s2, Throw e) => (s2, Throw e)
    end.

(** ** State setters and platform calls *)

Definition setIsListening (b : bool) : M unit :=
  fun s =>
    ({| messages := messages s; isListening := b;
        generatedWebsiteUrlRef := generatedWebsiteUrlRef s;
        speech := speech s; console := console s;
        generateCalls := generateCalls s |}, Normal tt).

Definition print (l : list log_entry) : M unit :=
  fun s =>
    ({| messages := messages s; isListening := isListening s;
        generatedWebsiteUrlRef := generatedWebsiteUrlRef s;
        speech := speech s; console := console s ++ l;
        generateCalls := generateCalls s |}, Normal tt).

(** [console.error(label, error)] *)
Definition console_error (label : string) (e : error) : M unit :=
  print [Error label e].

(** [speech.stop()]: capture ends; on a recognizer that is not capturing the
    call changes nothing. *)
Definition speech_stop : M unit :=
  fun s =>
    ({| messages := messages s; isListening := isListening s;
        generatedWebsiteUrlRef := generatedWebsiteUrlRef s;
        speech := match speech s with Some _ => Some false | None => None end;
        console := console s; generateCalls := generateCalls s |}, Normal tt).

(** ** The generation task *)

(** What one invocation of the generation function does, seen from the
    controller: the warnings it prints and how its promise settles. The task
    has no access to the component's cells. *)
Record invocation : Type := mkInvocation {
  printed : list string;
  outcome : settled
}.

(** A generation function: from the [message] argument to its behaviour. *)
Definition backend : Type := value -> invocation.

Definition placeholderNotice : string :=
  "This function is intentionally left empty as a placeholder for AI-generated website content generation logic.".

(** The placeholder of the source. Its body is one call of the ambient
    [consoleWarn], given here by whether that call throws; when it returns,
    the async function fulfils with [undefined]. *)
Definition generateWebsiteAsync (consoleWarn : string -> option error) : backend :=
  fun message =>
    match consoleWarn placeholderNotice with
    | None => {| printed := [placeholderNotice]; outcome := Fulfilled VUndefined |}
    | Some e => {| printed := []; outcome := Rejected e |}
    end.

(** Calling a generation function: its synchronous effects happen and the
    caller holds the promise. *)
Definition call (generate : backend) (arg : value) : M settled :=
  fun s =>
    ({| messages := messages s; isListening := isListening s;
        generatedWebsiteUrlRef := generatedWebsiteUrlRef s;
        speech := speech s;
        console := console s ++ map Warn (printed (generate arg));
        generateCalls := S (generateCalls s) |},
     Normal (outcome (generate arg))).

(** [await p] once [p] has settled. *)
Definition await (p : settled) : M value :=
  match p with
  | Fulfilled v => ret v
  | Rejected e => throw e
  end.

(** ** Name resolution *)

(** What a name denotes: a function from a message to a boolean, or some
    other value. *)
Inductive binding : Type :=
| BFunction (f : string -> bool)
| BValue.

Definition scope : Type := list (string * binding).

Fixpoint lookup (sc : scope) (name : string) : option binding :=
  match sc with
  | [] => None
  | (n, b) :: sc' => if String.eqb n name then Some b else lookup sc' name
  end.

(** Evaluating an identifier. *)
Definition resolve (sc : scope) (name : string) : M binding :=
  fun s =>
    match lookup sc name with
    | Some b => (s, Normal b)
    | None => (s, Throw (ReferenceError name))
    end.

(** Calling what a name denotes, with a message as argument. *)
Definition invoke (callee : binding) (arg : string) : M bool :=
  match callee with
  | BFunction f => ret (f arg)
  | BValue => throw (TypeError "not a function")
  end.

Definition names (l : list string) : scope :=
  map (fun n => (n, BValue)) l.

(** The imports of the module, its one declaration, and the globals of the
    platform that the file refers to. *)
Definition moduleScope : scope :=
  names ["React"; "useState"; "useEffect"; "useRef"; "App";
         "console"; "Promise"; "window"; "navigator"].

(** The declarations of the body of [App]. The [speech] of line 13 is not
    among them: it is a [let] inside [initSpeech]. *)
Definition componentScope : scope :=
  (names ["messages"; "setMessages"; "input"; "setInput"; "isListening";
          "setIsListening"; "generatedWebsiteUrlRef"; "toggleListening";
          "handleSendMessage"; "speakText"; "generateWebsiteAsync"]
   ++ moduleScope)%list.

(** ** The handlers *)

(** [function isWebsiteGenerationRequest(message)
      { return /build website|create website/.test(message); }] *)
Definition isWebsiteGenerationRequest (message : string) : bool :=
  test ["build website"; "create website"] message.

(** The body of [handleSendMessage] outside its [try] block sees the
    parameter and the component. *)
Definition handleSendMessageScope : scope :=
  (names ["messageText"] ++ componentScope)%list.

(** Inside the [try] block the classifier declared there and
    [lowerCaseMessage] are bound as well. *)
Definition tryBlockScope : scope :=
  ("isWebsiteGenerationRequest", BFunction isWebsiteGenerationRequest)
    :: (names ["lowerCaseMessage"] ++ handleSendMessageScope)%list.

(** [speech && (speech.stop(), setIsListening(false))]. The name [speech] is
    evaluated in the scope of the component; the [speech] cell of the state
    is the recognizer that [initSpeech] keeps in its local variable. *)
Definition toggleListening : M unit :=
  _ <- resolve componentScope "speech" ;;
  fun s =>
    match speech s with
    | Some _ => (speech_stop ;; setIsListening false) s
    | None => ret tt s
    end.

Definition errorLabel : string :=
  "Error during message handling or generation:".

Section Controller.

(** What the name [generateWebsiteAsync] denotes; the source binds it to the
    placeholder [generateWebsiteAsync]. *)
Variable generate : backend.

(** The first statement, [if (!isWebsiteGenerationRequest(messageText))
    return;], stands before the [try] block. *)
Definition handleSendMessage (messageText : string) : M unit :=
  callee <- resolve handleSendMessageScope "isWebsiteGenerationRequest" ;;
  accepted <- invoke callee messageText ;;
  if negb accepted then ret tt
  else
    tryCatchFinally
      (setIsListening true ;;
       let lowerCaseMessage := toLowerCase messageText in
       if includes lowerCaseMessage "generate website"
       then (p <- call generate VUndefined ;; _ <- await p ;; ret tt)
       else ret tt)
      (fun error => console_error errorLabel error)
      (setIsListening false).

End Controller.

(** ** The handler around its suspension point

    An async function runs synchronously up to its first [await] and is
    resumed later with the settled promise. [handleSendMessage] has one
    [await]; the two halves below are the code before and after it. *)

Inductive phase : Type :=
| Completed (c : completion unit)  (* the handler's own promise has settled *)
| Awaiting (p : settled).          (* suspended on the generation task *)

Section Suspension.

Variable generate : backend.

(** From the call up to the [await], or to the end when no task is run. *)
Definition handleSendMessage_begin (messageText : string) (s : state)
  : state * phase :=
  match (callee <- resolve handleSendMessageScope "isWebsiteGenerationRequest" ;;
         invoke callee messageText) s with
  | (s0, Throw e) => (s0, Completed (Throw e))
  | (s0, Normal accepted) =>
      if negb accepted then (s0, Completed (Normal tt))
      else
        let s1 := fst (setIsListening true s0) in
        let lowerCaseMessage := toLowerCase messageText in
        if includes lowerCaseMessage "generate website"
        then
          match call generate VUndefined s1 with
          | (s2, Normal p) => (s2, Awaiting p)
          | (s2, Throw e) => (s2, Completed (Throw e))
          end
        else
          let (s2, c) :=
            tryCatchFinally (ret tt)
              (fun error => console_error errorLabel error)
              (setIsListening false) s1 in
          (s2, Completed c)
  end.

(** From the [await] to the end: the rest of the [try] block, the [catch]
    clause and the [finally] clause. *)
Definition handleSendMessage_resume (p : settled) : M unit :=
  tryCatchFinally
    (_ <- await p ;; ret tt)
    (fun error => console_error errorLabel error)
    (setIsListening false).

(** *** The event loop

    The component together with the activations of [handleSendMessage]
    that are suspended on their task. *)

Record loop : Type := mkLoop {
  cells : state;
  inflight : list settled
}.

Inductive event : Type :=
| Submit (messageText : string)  (* a call of handleSendMessage *)
| Resume (i : nat)               (* the i-th suspended activation continues *)
| Toggle.                        (* a call of toggleListening *)

Fixpoint remove_nth {A} (i : nat) (l : list A) : list A :=
  match i, l with
  | _, [] => []
  | O, _ :: l' => l'
  | S i', x :: l' => x :: remove_nth i' l'
  end.

Definition dispatch (e : event) (l : loop) : loop :=
  match e with
  | Submit messageText =>
      match handleSendMessage_begin messageText (cells l) with
      | (s, Completed _) => {| cells := s; inflight := inflight l |}
      | (s, Awaiting p) => {| cells := s; inflight := inflight l ++ [p] |}
      end
  | Resume i =>
      match nth_error (inflight l) i with
      | Some p =>
          {| cells := fst (handleSendMessage_resume p (cells l));
             inflight := remove_nth i (inflight l) |}
      | None => l
      end
  | Toggle => {| cells := fst (toggleListening (cells l)); inflight := inflight l |}
  end.

Definition run (es : list event) (l : loop) : loop :=
  fold_left (fun l e => dispatch e l) es l.

End Suspension.

Definition boot (sp : option bool) : loop :=
  {| cells := initial sp; inflight := [] |}.

(** Sequential use: every submission runs to completion before the next
    operation. *)
Inductive operation : Type :=
| OpSubmit (messageText : string)
| OpToggle.

Definition perform (generate : backend) (o : operation) (s : state) : state :=
  match o with
  | OpSubmit messageText => fst (handleSendMessage generate messageText s)
  | OpToggle => fst (toggleListening s)
  end.

Definition performAll (generate : backend) (os : list operation) (s : state) : state :=
  fold_left (fun s o => perform generate o s) os s.

(** Counting transcript entries by origin. *)
Definition entriesFrom (o : origin) (s : state) : nat :=
  length (filter (isFrom o) (messages s)).

(** Modelled from the spec: the classifier as the spec words it, a
    case-insensitive search for one of three trigger phrases. *)
Definition spec_classify (t : string) : bool :=
  test ["build website"; "create website"; "generate website"] (toLowerCase t).

(** ** Environments used in the examples *)

(** The placeholder where the ambient [consoleWarn] returns normally. *)
Definition placeholderBound : backend :=
  generateWebsiteAsync (fun _ => None).

(** The placeholder where [consoleWarn] is not bound: evaluating the name
    throws a ReferenceError inside the async function, whose promise is then
    rejected. *)
Definition placeholderUnbound : backend :=
  generateWebsiteAsync (fun _ => Some (ReferenceError "consoleWarn")).

(** ** The rest of the component *)

(** [const [input, setInput] = useState('')]: the component never calls
    [setInput], so the cell holds its initial value in every render. *)
Definition input : string := "".

Definition voiceErrorLabel : string :=
  "Error during voice synthesis or recognition:".

(** How an activation of [speakText] ends: its promise settles, or it stays
    suspended for ever. *)
Inductive activation : Type :=
| Settles (c : completion unit)
| NeverSettles.

Definition speakTextScope : scope :=
  (names ["text"] ++ componentScope)%list.

(** [if (!speech || !isWebsiteGenerationRequest(input)) return;]: whether
    the handler goes on. *)
Definition speakText_gate : M bool :=
  _ <- resolve speakTextScope "speech" ;;
  fun s =>
    match speech s with
    | None => ret false s
    | Some _ =>
        (callee <- resolve speakTextScope "isWebsiteGenerationRequest" ;;
         invoke callee input) s
    end.

(** The executor [(resolve, reject) => speech &&
    speaker?.startSpeakingAsync(...text)]. No scope binds [speaker]; were it
    bound, [startSpeakingAsync] says whether the method returns or throws. *)
Definition speakText_executor (startSpeakingAsync : string -> option error)
    (text : string) : M unit :=
  _ <- resolve speakTextScope "speech" ;;
  _ <- resolve speakTextScope "speaker" ;;
  match startSpeakingAsync text with
  | None => ret tt
  | Some e => throw e
  end.

(** [speakText]. The promise built in the [try] block is settled only by a
    throw of its executor, which calls neither [resolve] nor [reject]; the
    [catch] clause calls [consoleWarn]; the [finally] block is empty. *)
Definition speakText (consoleWarn : string -> option error)
    (startSpeakingAsync : string -> option error) (text : string) (s : state)
  : state * activation :=
  match speakText_gate s with
  | (s1, Throw e) => (s1, Settles (Throw e))
  | (s1, Normal false) => (s1, Settles (Normal tt))
  | (s1, Normal true) =>
      match speakText_executor startSpeakingAsync text s1 with
      | (s2, Normal _) => (s2, NeverSettles)
      | (s2, Throw _) =>
          match consoleWarn voiceErrorLabel with
          | None => (fst (print [Warn voiceErrorLabel] s2), Settles (Normal tt))
          | Some e' => (s2, Settles (Throw e'))
          end
      end
  end.

(** [messages.map((msg, index) => (<li key={index}>{msg}</li>))]: one list
    item per message, keyed by its position. *)
Fixpoint renderFrom {A} (index : nat) (ms : list A) : list (nat * A) :=
  match ms with
  | [] => []
  | msg :: ms' => (index, msg) :: renderFrom (S index) ms'
  end.

Definition renderMessages {A} (ms : list A) : list (nat * A) :=
  renderFrom 0 ms.

(** * Properties *)

(** ** Strings *)

Lemma lowerChar_eqb c d :
  Ascii.eqb c d = true -> Ascii.eqb (lowerChar c) (lowerChar d) = true.
Proof.
  intros H. apply Ascii.eqb_eq in H. subst d. apply Ascii.eqb_refl.
Qed.

Lemma startsWith_toLowerCase s : forall p,
  startsWith s p = true -> startsWith (toLowerCase s) (toLowerCase p) = true.
Proof.
  induction s as [|d s IH]; intros [|c p]; simpl; trivial.
  intros H. apply andb_true_iff in H as [Hc Hp].
  rewrite (lowerChar_eqb _ _ Hc). simpl. now apply IH.
Qed.

Lemma includes_toLowerCase s p :
  includes s p = true -> includes (toLowerCase s) (toLowerCase p) = true.
Proof.
  induction s as [|d s IH]; simpl; intros H.
  - rewrite orb_false_r in *. now apply (startsWith_toLowerCase EmptyString).
  - apply orb_true_iff in H as [H|H].
    + apply (startsWith_toLowerCase (String d s)) in H. simpl in H.
      now rewrite H.
    + rewrite (IH H). apply orb_true_r.
Qed.

Lemma isWebsiteGenerationRequest_unfold m :
  isWebsiteGenerationRequest m
  = includes m "build website" || includes m "create website".
Proof.
  unfold isWebsiteGenerationRequest, test. simpl. now rewrite orb_false_r.
Qed.

(** What the source's classifier accepts, the spec's classifier accepts as
    well: the two differ only on texts the source rejects. *)
Lemma isWebsiteGenerationRequest_sound m :
  isWebsiteGenerationRequest m = true -> spec_classify m = true.
Proof.
  rewrite isWebsiteGenerationRequest_unfold. unfold spec_classify, test.
  cbn [existsb]. intros H. apply orb_true_iff in H as [H|H];
    apply includes_toLowerCase in H; cbn [toLowerCase] in H;
    change (toLowerCase "") with "" in H.
  - vm_compute lowerChar in H. now rewrite H.
  - vm_compute lowerChar in H. rewrite H. now rewrite orb_true_r.
Qed.

(** ** Name resolution in the handlers *)

Lemma handleSendMessage_throws generate messageText s :
  handleSendMessage generate messageText s
  = (s, Throw (ReferenceError "isWebsiteGenerationRequest")).
Proof. reflexivity. Qed.

Lemma handleSendMessage_begin_throws generate messageText s :
  handleSendMessage_begin generate messageText s
  = (s, Completed (Throw (ReferenceError "isWebsiteGenerationRequest"))).
Proof. reflexivity. Qed.

Lemma toggleListening_throws s :
  toggleListening s = (s, Throw (ReferenceError "speech")).
Proof. reflexivity. Qed.

Lemma perform_unchanged generate o s : perform generate o s = s.
Proof.
  destruct o as [messageText|]; cbn [perform].
  - now rewrite handleSendMessage_throws.
  - now rewrite toggleListening_throws.
Qed.

Lemma performAll_unchanged generate os s : performAll generate os s = s.
Proof.
  unfold performAll. revert s.
  induction os as [|o os IH]; intros s; cbn [fold_left]; trivial.
  now rewrite perform_unchanged.
Qed.

(** Induction over the events of a run. *)
Lemma run_invariant generate (P : loop -> Prop) :
  (forall e l, P l -> P (dispatch generate e l)) ->
  forall es l, P l -> P (run generate es l).
Proof.
  intros Hstep es. unfold run.
  induction es as [|e es IH]; intros l Hl; cbn [fold_left]; auto.
Qed.

Lemma dispatch_boot generate e sp :
  dispatch generate e (boot sp) = boot sp.
Proof.
  destruct e as [messageText|i|]; cbn [dispatch].
  - now rewrite handleSendMessage_begin_throws.
  - now destruct i.
  - now rewrite toggleListening_throws.
Qed.

Lemma run_boot generate es sp : run generate es (boot sp) = boot sp.
Proof.
  apply (run_invariant generate (fun l => l = boot sp)); trivial.
  intros e l ->. apply dispatch_boot.
Qed.

(** ** The classifier *)

(** C1 (defect in the code): the classifier is meant to accept every text
    with "build website", "create website" or "generate website" in any
    letter case. The source's pattern has two alternatives and no
    case-insensitivity flag: it rejects "generate website" and
    "Build Website", which the classifier of the spec accepts. *)
Theorem isWebsiteGenerationRequest_misses_phrases :
  isWebsiteGenerationRequest "generate website" = false
  /\ spec_classify "generate website" = true
  /\ isWebsiteGenerationRequest "Build Website" = false
  /\ spec_classify "Build Website" = true.
Proof. repeat split; vm_compute; reflexivity. Qed.

(** ** Starting the generation task *)

(** C2 (counterexample): "please create website for me" is accepted by the
    classifier, yet the handler ends without calling the generation
    function. *)
Lemma handleSendMessage_create_website_no_task :
  isWebsiteGenerationRequest "please create website for me" = true
  /\ handleSendMessage placeholderUnbound "please create website for me"
       (initial None)
     = (initial None, Throw (ReferenceError "isWebsiteGenerationRequest"))
  /\ generateCalls
       (fst (handleSendMessage placeholderUnbound "please create website for me"
               (initial None))) = 0.
Proof. repeat split; vm_compute; reflexivity. Qed.

(** C2 (amended): a submission calls the generation function only if the
    classifier accepts the text and the lower-cased text contains
    "generate website": for every other text, "please create website for
    me" and every text the classifier rejects among them, the count of
    generation calls is after the submission what it was before. *)
Theorem handleSendMessage_generateCalls generate messageText s :
  isWebsiteGenerationRequest messageText
  && includes (toLowerCase messageText) "generate website" = false ->
  generateCalls (fst (handleSendMessage generate messageText s))
  = generateCalls s.
Proof.
  intros _. now rewrite handleSendMessage_throws.
Qed.

Lemma handleSendMessage_generateCalls_witness :
  generateCalls
    (fst (handleSendMessage placeholderUnbound "please create website for me"
            (initial None)))
  = generateCalls (initial None).
Proof.
  apply (handleSendMessage_generateCalls placeholderUnbound
           "please create website for me" (initial None)).
  vm_compute. reflexivity.
Defined.

(** ** The busy flag *)


(** ** The transcript entry of a submission *)

(** C6 (defect in the code): a text the classifier rejects, such as "hello",
    is to be appended to the transcript as a User entry. The handler's first
    line throws before anything is written: the promise is rejected and the
    transcript gains nothing (the flag is left as it was and no task is
    run, as claimed). *)
Theorem handleSendMessage_hello_not_appended generate s :
  handleSendMessage generate "hello" s
  = (s, Throw (ReferenceError "isWebsiteGenerationRequest"))
  /\ entriesFrom User (fst (handleSendMessage generate "hello" s))
     = entriesFrom User s.
Proof. split; reflexivity. Qed.

(** ** Tasks in flight *)


(** ** Completion of the handler *)

(** C8 (defect in the code): the handler is to resolve on every text. Its
    first statement, outside the [try] block, calls a function that is bound
    only inside the block: on every text, in every state, the handler throws
    a ReferenceError there, nothing catches it and its promise is
    rejected. *)
Theorem handleSendMessage_rejects generate messageText s :
  lookup handleSendMessageScope "isWebsiteGenerationRequest" = None
  /\ lookup tryBlockScope "isWebsiteGenerationRequest"
     = Some (BFunction isWebsiteGenerationRequest)
  /\ snd (handleSendMessage generate messageText s)
     = Throw (ReferenceError "isWebsiteGenerationRequest")
  /\ fst (handleSendMessage generate messageText s) = s.
Proof. repeat split. Qed.

(** ** Stopping capture *)

(** C9 (defect in the code): [toggleListening] is to be a harmless no-op
    when nothing is capturing. It evaluates [speech], which is bound only
    inside [initSpeech]: every call throws a ReferenceError; the state is
    left as it was, on a first call and on every repetition. *)
Theorem toggleListening_throws_on_speech s :
  lookup componentScope "speech" = None
  /\ toggleListening s = (s, Throw (ReferenceError "speech"))
  /\ toggleListening (fst (toggleListening s))
     = (s, Throw (ReferenceError "speech")).
Proof. repeat split. Qed.

(** ** The transcript *)

(** C10: after every finite sequence of submissions and calls of
    [toggleListening] from the initial state the transcript is the empty
    list; this holds as well when submissions overlap, that is for every
    sequence of events of the loop. *)
Theorem messages_stay_empty generate sp :
  (forall os, messages (performAll generate os (initial sp)) = [])
  /\ (forall es, messages (cells (run generate es (boot sp))) = []).
Proof.
  split.
  - intros os. now rewrite performAll_unchanged.
  - intros es. now rewrite run_boot.
Qed.

(** * Further properties of the component *)

(** ** Substring search *)

Lemma append_assoc (a b c : string) : (a ++ b) ++ c = a ++ b ++ c.
Proof. induction a as [|x a IH]; simpl; [trivial | now rewrite IH]. Qed.

Lemma length_append (a b : string) :
  String.length (a ++ b) = String.length a + String.length b.
Proof. induction a as [|x a IH]; simpl; [trivial | now rewrite IH]. Qed.

Lemma startsWith_spec p : forall s,
  startsWith s p = true <-> exists b, s = p ++ b.
Proof.
  induction p as [|c p IH]; intros s.
  - split; [intros _; now exists s | intros _; now destruct s].
  - destruct s as [|d s]; simpl.
    + split; [discriminate | intros [b Hb]; discriminate].
    + rewrite andb_true_iff, Ascii.eqb_eq, IH. split.
      * intros [-> [b ->]]. now exists b.
      * intros [b Hb]. injection Hb as -> ->. split; [trivial | now exists b].
Qed.

Lemma includes_spec p : forall s,
  includes s p = true <-> exists a b, s = a ++ p ++ b.
Proof.
  induction s as [|d s IH].
  - cbn [includes]. rewrite orb_false_r, startsWith_spec. split.
    + intros [b Hb]. now exists "", b.
    + intros [[|x a] [b Hb]]; [now exists b | discriminate].
  - cbn [includes]. rewrite orb_true_iff, startsWith_spec, IH. split.
    + intros [[b Hb] | [a [b Hb]]].
      * now exists "", b.
      * exists (String d a), b. simpl. now rewrite Hb.
    + intros [[|x a] [b Hb]].
      * left. now exists b.
      * right. simpl in Hb. injection Hb as -> ->. now exists a, b.
Qed.

(** X1: the classifier accepts a message exactly when "build website" or
    "create website" occurs in it, letter for letter, between an arbitrary
    prefix and an arbitrary suffix. *)
Theorem isWebsiteGenerationRequest_spec message :
  isWebsiteGenerationRequest message = true
  <-> exists a b, message = a ++ "build website" ++ b
                  \/ message = a ++ "create website" ++ b.
Proof.
  rewrite isWebsiteGenerationRequest_unfold, orb_true_iff, !includes_spec.
  split.
  - intros [[a [b H]] | [a [b H]]]; exists a, b; auto.
  - intros [a [b [H | H]]]; [left | right]; now exists a, b.
Qed.

(** X2: a message of fewer than 13 characters, the empty message among
    them, is never accepted by the classifier. *)
Theorem isWebsiteGenerationRequest_short message :
  String.length message < 13 -> isWebsiteGenerationRequest message = false.
Proof.
  intros Hlen. destruct (isWebsiteGenerationRequest message) eqn:E; trivial.
  apply isWebsiteGenerationRequest_spec in E as [a [b [-> | ->]]];
    rewrite !length_append in Hlen; cbn [String.length] in Hlen; lia.
Qed.

Lemma isWebsiteGenerationRequest_short_witness :
  isWebsiteGenerationRequest "make website" = false.
Proof.
  apply (isWebsiteGenerationRequest_short "make website"). cbn. lia.
Defined.

(** X3: acceptance survives any surrounding text: when the classifier
    accepts a message it accepts the message with text put before and
    after it. *)
Theorem isWebsiteGenerationRequest_context pre message post :
  isWebsiteGenerationRequest message = true ->
  isWebsiteGenerationRequest (pre ++ message ++ post) = true.
Proof.
  rewrite !isWebsiteGenerationRequest_spec.
  intros [a [b [-> | ->]]]; exists (pre ++ a), (b ++ post); [left | right];
    now rewrite !append_assoc.
Qed.

Lemma isWebsiteGenerationRequest_context_witness :
  isWebsiteGenerationRequest ("please " ++ "build website" ++ " now") = true.
Proof.
  apply (isWebsiteGenerationRequest_context "please " "build website" " now").
  reflexivity.
Defined.

(** ** The handlers together *)

(** X7: [toggleListening] and a submission that runs to completion commute:
    whichever is called first, the component ends in the same state. *)
Theorem perform_toggle_commutes generate messageText s :
  perform generate OpToggle (perform generate (OpSubmit messageText) s)
  = perform generate (OpSubmit messageText) (perform generate OpToggle s).
Proof.
  now rewrite !perform_unchanged.
Qed.


(** X10: in every state the loop reaches, the activations in flight are at
    most as many as the calls of the generation function made so far. *)
Theorem inflight_le_generateCalls generate es sp :
  length (inflight (run generate es (boot sp)))
  <= generateCalls (cells (run generate es (boot sp))).
Proof.
  rewrite run_boot. cbn. lia.
Qed.

(** X13: no sequence of submissions, resumptions and calls of
    [toggleListening] ever writes the artifact reference: it holds [null]
    in every state the loop reaches, whatever the generation function
    returns. *)
Theorem generatedWebsiteUrlRef_stays_null generate es sp :
  generatedWebsiteUrlRef (cells (run generate es (boot sp))) = None.
Proof.
  now rewrite run_boot.
Qed.

(** X14: no handler starts capture. When the recognizer is not capturing at
    the start it is not capturing in any state the loop reaches;
    [toggleListening], despite its name, only ever stops it. *)
Theorem capture_never_starts generate es sp :
  sp <> Some true ->
  speech (cells (run generate es (boot sp))) <> Some true.
Proof.
  intros Hsp. now rewrite run_boot.
Qed.

Lemma capture_never_starts_witness :
  speech (cells (run placeholderBound
                   [Toggle; Submit "build website, generate website"; Toggle]
                   (boot (Some false)))) <> Some true.
Proof.
  apply (capture_never_starts placeholderBound
           [Toggle; Submit "build website, generate website"; Toggle]
           (Some false)).
  discriminate.
Defined.

(** ** Speech output *)

(** X15: [speakText] never reaches the synthesizer. For every text, every
    state and whatever [consoleWarn] and the speaker's method would do, its
    first line evaluates [speech], which no enclosing scope binds: the
    activation is rejected with that ReferenceError and the state is left
    as it was. *)
Theorem speakText_rejects_at_once consoleWarn startSpeakingAsync text s :
  speakText consoleWarn startSpeakingAsync text s
  = (s, Settles (Throw (ReferenceError "speech"))).
Proof. reflexivity. Qed.

(** ** The rendered transcript *)

Lemma renderFrom_nth_error {A} (ms : list A) : forall index i,
  nth_error (renderFrom index ms) i
  = option_map (fun msg => (index + i, msg)) (nth_error ms i).
Proof.
  induction ms as [|m ms IH]; intros index [|i]; cbn [renderFrom nth_error option_map];
    trivial.
  - now rewrite Nat.add_0_r.
  - rewrite IH. now rewrite Nat.add_succ_comm.
Qed.

(** X18: the list the component renders has one item per message, in the
    order of the transcript, and the item at position [i] carries the key
    [i]; past the end of the transcript there is no item. *)
Theorem renderMessages_nth_error {A} (ms : list A) i :
  nth_error (renderMessages ms) i
  = option_map (fun msg => (i, msg)) (nth_error ms i).
Proof. unfold renderMessages. now rewrite renderFrom_nth_error. Qed.
